(** * Pre-flight prerequisite checks of crbt: [lib/checkPrereqs.js]

    A shallow embedding of the six exported checkers together with the
    collaborators they call ([child_process.spawnSync], [fs.readFileSync],
    [fs.readdir], [os.homedir], [console.log], [process.exit]), followed by
    the properties the specification states about them.

    The checkers are effectful: they launch child processes, read the file
    system, print and may halt the host process.  They are written in a small
    state-and-completion monad over a [World] that carries the (read-only)
    environment responses and the log of observable actions performed so
    far. *)

From Stdlib Require Import String Ascii List ZArith Bool Arith Lia Permutation.
Import ListNotations.
Open Scope string_scope.

(** ** JavaScript strings and arrays *)

Module Js.

(** [String.prototype.includes(needle)] with the default start position:
    [needle] occurs at some offset of [hay]. *)
Fixpoint includes (needle hay : string) : bool :=
  String.prefix needle hay
  || match hay with
     | EmptyString => false
     | String _ rest => includes needle rest
     end.

(** [Array.prototype.toString], which is what ['text' + array] uses:
    the elements joined by a comma. *)
Definition Array_toString (a : list string) : string :=
  String.concat "," a.

(** The enumerable own keys of a dense array, in the order [for ... in]
    visits them. *)
Definition keys {A : Type} (a : list A) : list nat :=
  seq 0 (List.length a).

(** A [Buffer] as returned by [readFileSync] and captured by [spawnSync];
    only its [toString()] is ever used. *)
Inductive Buffer : Type :=
| Buf (text : string).

Definition Buffer_toString (b : Buffer) : string :=
  match b with Buf text => text end.

(** [status !== 0] for a status that is a number or [null]. *)
Definition strict_neq_0 (status : option Z) : bool :=
  match status with
  | Some z => negb (z =? 0)%Z
  | None => true
  end.

End Js.

Import Js.

(** ** The environment and the observable actions *)

(** The object returned by [spawnSync]: [status] is [null] when the child
    could not be launched or was killed by a signal; the captured streams are
    [null] when the child could not be launched. *)
Record SpawnSyncReturns : Type := mkSpawn {
  status : option Z;
  stdout : option Buffer;
  stderr : option Buffer
}.

Inductive FsError : Type :=
| ENOENT
| EACCES
| ENOTDIR
| EISDIR
| EIO.

(** What can be thrown inside a checker. *)
Inductive Exn : Type :=
| TypeError
| FsException (e : FsError).

(** Responses of the collaborators the checkers query. *)
Record Env : Type := mkEnv {
  env_spawn : string -> list string -> SpawnSyncReturns;
  env_readFile : string -> FsError + Buffer;
  env_readdir : string -> FsError + list string;
  env_homedir : string
}.

Inductive Event : Type :=
| EvSpawn (file : string) (args : list string)
| EvReadFile (path : string)
| EvReaddir (path : string)
| EvLog (line : string)
| EvExit (code : Z).

Record World : Type := mkWorld {
  env : Env;
  trace : list Event
}.

(** [w <+ evs]: the world [w] after the actions [evs] were performed. *)
Definition extend (w : World) (evs : list Event) : World :=
  {| env := env w; trace := trace w ++ evs |}.

Notation "w <+ evs" := (extend w evs) (at level 50, left associativity).

(** ** Completions and the checker monad *)

Inductive Completion (A : Type) : Type :=
| Normal (a : A)
| Throw (e : Exn)
| Halt (code : Z).

Arguments Normal {A} a.
Arguments Throw {A} e.
Arguments Halt {A} code.

Definition M (A : Type) : Type := World -> Completion A * World.

Definition ret {A : Type} (a : A) : M A :=
  fun w => (Normal a, w).

Definition bind {A B : Type} (m : M A) (k : A -> M B) : M B :=
  fun w =>
    match m w with
    | (Normal a, w') => k a w'
    | (Throw e, w') => (Throw e, w')
    | (Halt code, w') => (Halt code, w')
    end.

Definition throw {A : Type} (e : Exn) : M A :=
  fun w => (Throw e, w).

(** [try { body } catch (e) { handler }]: a halted process is not caught. *)
Definition try_catch {A : Type} (body : M A) (handler : Exn -> M A) : M A :=
  fun w =>
    match body w with
    | (Throw e, w') => handler e w'
    | r => r
    end.

Declare Scope checker_scope.
Delimit Scope checker_scope with checker.
Notation "x <- m ;; k" := (bind m (fun x => k))
  (at level 61, m at next level, right associativity) : checker_scope.
Notation "m ;; k" := (bind m (fun _ => k))
  (at level 61, right associativity) : checker_scope.
Open Scope checker_scope.

(** [a || b] where evaluating [b] has effects: [b] runs only if [a] is
    false. *)
Definition or_else (a : M bool) (b : M bool) : M bool :=
  x <- a ;; if x then ret true else b.

(** [for (let k in a) body], threading the variables the body assigns. *)
Fixpoint for_in {S : Type} (ks : list nat) (body : nat -> S -> M S) (s : S)
  : M S :=
  match ks with
  | [] => ret s
  | k :: ks' => s' <- body k s ;; for_in ks' body s'
  end.

(** Member access on a value that may be [null]/[undefined]. *)
Definition deref {A : Type} (o : option A) : M A :=
  match o with
  | Some a => ret a
  | None => throw TypeError
  end.

(** ** Collaborators *)

(** The NUL character, which neither [child_process] nor [fs] accepts
    inside a file name or an argument. *)
Definition NUL : string := String (ascii_of_nat 0) EmptyString.

(** [spawnSync] validates its arguments before it launches anything: an
    empty file name, or a NUL character in the file name or in an argument,
    is answered with a thrown [TypeError]. *)
Definition spawn_refuses (file : string) (args : list string) : bool :=
  (file =? "") || includes NUL file || existsb (includes NUL) args.

Definition spawn (file : string) (args : list string) : M SpawnSyncReturns :=
  fun w =>
    if spawn_refuses file args then (Throw TypeError, w)
    else (Normal (env_spawn (env w) file args), w <+ [EvSpawn file args]).

Definition fs_readFileSync (path : string) : M Buffer :=
  fun w =>
    match env_readFile (env w) path with
    | inr data => (Normal data, w <+ [EvReadFile path])
    | inl e => (Throw (FsException e), w <+ [EvReadFile path])
    end.

(** [fs.readdir(path, callback)].  The call itself validates the path and
    throws a [TypeError] on a NUL character; otherwise it requests the
    listing and returns, and what it returns here is the part that runs
    later: the callback, which receives [(err, undefined)] or
    [(null, files)]. *)
Definition fs_readdir {R : Type} (path : string)
    (callback : option FsError -> option (list string) -> M R) : M (M R) :=
  fun w =>
    if includes NUL path then (Throw TypeError, w)
    else
      (Normal
         (fun w' =>
            match env_readdir (env w') path with
            | inl e => callback (Some e) None w'
            | inr files => callback None (Some files) w'
            end),
       w <+ [EvReaddir path]).

Definition os_homedir : M string :=
  fun w => (Normal (env_homedir (env w)), w).

Definition console_log (line : string) : M unit :=
  fun w => (Normal tt, w <+ [EvLog line]).

(** [process.exit(code)] halts the host process: nothing after it runs. *)
Definition process_exit (code : Z) : M unit :=
  fun w => (Halt code, w <+ [EvExit code]).

(** How a promise ends up; [reject()] and [resolve()] pass [undefined]. *)
Inductive JsValue : Type :=
| Undefined
| ErrorObject (e : Exn).

Inductive Settlement : Type :=
| Fulfilled (value : JsValue)
| Rejected (reason : JsValue).

(** [new Promise(executor)], read as how the promise ends up.  The executor
    runs at once; if it throws, the promise is rejected with what was
    thrown.  Otherwise the promise is settled by the part the executor left
    to run later; an exception in that part is not caught by the promise. *)
Definition new_Promise (executor : M (M Settlement)) : M Settlement :=
  fun w =>
    match executor w with
    | (Normal later, w') => later w'
    | (Throw e, w') => (Normal (Rejected (ErrorObject e)), w')
    | (Halt code, w') => (Halt code, w')
    end.

Definition tab : string := String (ascii_of_nat 9) EmptyString.
Definition dquote : string := String (ascii_of_nat 34) EmptyString.

(** ** The checkers *)

Section CheckPrereqs.

(** The three formatters of [lib/colorScheme], which is not part of the
    module under study: pure string transforms. *)
Variables failure warn varFmt : string -> string.

(** [checkInstalled(commandsToCheck)]: probe every command with
    [--version] and collect those whose status is not 0. *)
Definition checkInstalled (commandsToCheck : list string) : M unit :=
  if (List.length commandsToCheck =? 0)%nat then ret tt
  else
    missingPrereqs <-
      for_in (keys commandsToCheck)
        (fun command missingPrereqs =>
           (* for-in yields own indices only, so the element is defined;
              [spawn(undefined, ...)] would be rejected with a TypeError *)
           name <- deref (nth_error commandsToCheck command) ;;
           r <- spawn name ["--version"] ;;
           if strict_neq_0 (status r)
           then ret (missingPrereqs ++ [name])%list
           else ret missingPrereqs)
        [] ;;
    if negb (List.length missingPrereqs =? 0)%nat
    then
      console_log
        (failure ("Required pre-requisites not installed: "
                  ++ Array_toString missingPrereqs ++ ". Exiting...")) ;;
      process_exit 1
    else ret tt.

Definition gcloud_failure_line : string :=
  failure "The gcloud command does not appear to be initialized fully: no project is configured. Exiting...".
Definition gcloud_hint_init : string :=
  warn "To fully initialize gcloud: gcloud init".
Definition gcloud_hint_set : string :=
  warn "To set a project: gcloud config set project [NAME]".

(** [checkGcloudProject()]: a project must be configured in gcloud. *)
Definition checkGcloudProject : M unit :=
  checkGcloud <- spawn "gcloud" ["config"; "get-value"; "project"] ;;
  c <- or_else
         (ret (strict_neq_0 (status checkGcloud)))
         (err <- deref (stderr checkGcloud) ;;
          ret (includes "(unset)" (Buffer_toString err))) ;;
  if (c : bool)
  then
    console_log gcloud_failure_line ;;
    console_log gcloud_hint_init ;;
    console_log gcloud_hint_set ;;
    process_exit 1
  else ret tt.

Definition gitcookies_failure_line : string :=
  failure "Authentication to Cloud Source Repositories through git is not configured. Please configure it as defined in: https://cloud.google.com/source-repositories/docs/authentication#manually-generated-credentials".

(** [checkGitLocalAuth()]: [~/.gitcookies] must mention Cloud Source
    Repositories.  [gitCookies] starts as [null] and is assigned only if the
    read succeeds. *)
Definition checkGitLocalAuth : M unit :=
  homedir <- os_homedir ;;
  gitCookies <-
    try_catch
      (data <- fs_readFileSync (homedir ++ "/.gitcookies") ;;
       ret (Some (Buffer_toString data)))
      (fun _ =>
         console_log gitcookies_failure_line ;;
         process_exit 1 ;;
         ret None) ;;
  c <- (text <- deref gitCookies ;;
        ret (negb (includes "source.developers.google.com" text))) ;;
  if (c : bool)
  then
    console_log gitcookies_failure_line ;;
    process_exit 1
  else ret tt.

Definition git_failure_line : string :=
  failure "The git command does not appear to be initialized fully with a configured email and name. Exiting...".
Definition git_hint_header : string :=
  warn "To fully initialize git, configure name and email with:".
Definition git_hint_email : string :=
  warn (tab ++ varFmt ("git config --global user.email "
                      ++ dquote ++ "you@example.com" ++ dquote)).
Definition git_hint_name : string :=
  warn (tab ++ varFmt ("git config --global user.name "
                      ++ dquote ++ "Your Name" ++ dquote)).

(** [checkGitConfig()]: git must have a user email and name. *)
Definition checkGitConfig : M unit :=
  checkGitConfig <- spawn "git" ["config"; "--list"] ;;
  c <- or_else
         (or_else
            (ret (strict_neq_0 (status checkGitConfig)))
            (out <- deref (stdout checkGitConfig) ;;
             ret (negb (includes "email" (Buffer_toString out)))))
         (out <- deref (stdout checkGitConfig) ;;
          ret (negb (includes "name" (Buffer_toString out)))) ;;
  if (c : bool)
  then
    console_log git_failure_line ;;
    console_log git_hint_header ;;
    console_log git_hint_email ;;
    console_log git_hint_name ;;
    process_exit 1
  else ret tt.

(** [checkFileExists(file)]: [fileData] starts as [null] and is assigned
    only if the read succeeds; the empty [catch] swallows the error. *)
Definition checkFileExists (file : string) : M bool :=
  fileData <-
    try_catch
      (data <- fs_readFileSync file ;; ret (Some data))
      (fun _ => ret None) ;;
  match fileData with
  | Some _ => ret true
  | None => ret false
  end.

(** [checkLocalDir(dirName)]: the value is how the returned promise is
    settled by the [readdir] callback. *)
Definition checkLocalDir (dirName : string) : M Settlement :=
  new_Promise
    (fs_readdir dirName
       (fun err files =>
          match err with
          | Some _ => ret (Rejected Undefined)
          | None =>
              fs <- deref files ;;
              if (List.length fs =? 0)%nat
              then ret (Fulfilled Undefined)
              else ret (Rejected Undefined)
          end)).

End CheckPrereqs.

(** ** Vocabulary of the specification *)

(** [needle] occurs somewhere inside [hay]. *)
Definition Substring (needle hay : string) : Prop :=
  exists before after, hay = before ++ needle ++ after.

(** The probe [checkInstalled] launches for a command name. *)
Definition probe (name : string) : Event :=
  EvSpawn name ["--version"].

(** The probe of [name] did not exit with status 0: it exited with another
    status, or has no status at all (not launched, killed). *)
Definition probe_failed (e : Env) (name : string) : bool :=
  strict_neq_0 (status (env_spawn e name ["--version"])).

(** The text [checkInstalled] prints (before styling) for the names in
    [missing]. *)
Definition missing_message (missing : list string) : string :=
  "Required pre-requisites not installed: "
  ++ Array_toString missing ++ ". Exiting...".

(** The queries of the two checkers that run a fixed command. *)
Definition gcloud_query : Event :=
  EvSpawn "gcloud" ["config"; "get-value"; "project"].

Definition git_query : Event :=
  EvSpawn "git" ["config"; "--list"].

(** What [spawnSync] guarantees with its default piped stdio: a child that
    has an exit status also has both captured streams. *)
Definition streams_captured (r : SpawnSyncReturns) : Prop :=
  status r <> None -> stdout r <> None /\ stderr r <> None.

Definition node_env (e : Env) : Prop :=
  forall file args, streams_captured (env_spawn e file args).

(** Printing and halting are the actions a user observes as output. *)
Definition is_output (ev : Event) : bool :=
  match ev with
  | EvLog _ | EvExit _ => true
  | _ => false
  end.

(** A name [spawnSync] accepts as the file to run: not empty and without a
    NUL character. *)
Definition Launchable (name : string) : Prop :=
  name <> "" /\ ~ Substring NUL name.

Definition launchable (name : string) : bool :=
  negb ((name =? "") || includes NUL name).

(** The names [checkInstalled] gets to probe: those before the first name
    [spawnSync] refuses. *)
Fixpoint launched_before_refusal (names : list string) : list string :=
  match names with
  | [] => []
  | name :: rest =>
      if launchable name then name :: launched_before_refusal rest else []
  end.

(** The convention of a fatal checker [m], for a run from [w], given the
    condition [failing] under which its prerequisite is unmet, its [queries]
    and the [lines] it has to print.  When [failing] holds the run is: the
    queries, every line in order, then exit code 1 as the last action, and
    the checker does not come back.  A run that prints anything or halts at
    all is a run where [failing] holds. *)
Definition fails_loudly (m : M unit) (w : World) (failing : Prop)
    (queries : list Event) (lines : list string) : Prop :=
  Forall (fun ev => is_output ev = false) queries
  /\ lines <> []
  /\ (failing ->
      m w = (Halt 1, w <+ (queries ++ map EvLog lines ++ [EvExit 1])))
  /\ (forall r evs,
        m w = (r, w <+ evs) ->
        Exists (fun ev => is_output ev = true) evs \/ (exists code, r = Halt code) ->
        failing).

(** Two runs of [m] that go the same way: the same completion and the same
    actions, each appended to its own earlier history, the environments left
    as they were. *)
Definition same_run {A : Type} (m : M A) (w1 w2 : World) : Prop :=
  exists r evs, m w1 = (r, w1 <+ evs) /\ m w2 = (r, w2 <+ evs).

(** ** Sample environments *)

Definition nl : string := String (ascii_of_nat 10) EmptyString.

Definition exited (code : Z) (out err : string) : SpawnSyncReturns :=
  {| status := Some code; stdout := Some (Buf out); stderr := Some (Buf err) |}.

Definition not_launched : SpawnSyncReturns :=
  {| status := None; stdout := None; stderr := None |}.

(** A formatter that adds no styling. *)
Definition plain (text : string) : string := text.

(** A workstation where [foo], [gcloud] and [git] run, [bar] exits with 1,
    gcloud reports no project, git has an identity and the cookie file is in
    place. *)
Definition demo_env : Env :=
  {| env_spawn := fun file _ =>
       if file =? "foo" then exited 0 "foo 1.0" ""
       else if file =? "bar" then exited 1 "" "bar: bad option"
       else if file =? "gcloud" then exited 0 "" ("(unset)" ++ nl)
       else if file =? "git"
            then exited 0 ("user.email=x@y.com" ++ nl ++ "user.name=X" ++ nl) ""
       else not_launched;
     env_readFile := fun path =>
       if path =? "/home/dev/.gitcookies"
       then inr (Buf ("source.developers.google.com" ++ tab ++ "FALSE"))
       else inl ENOENT;
     env_readdir := fun path =>
       if path =? "/tmp/empty" then inr []
       else if path =? "/tmp/full" then inr ["a.txt"]
       else inl ENOENT;
     env_homedir := "/home/dev" |}.

(** A machine with nothing installed and an empty home directory. *)
Definition bare_env : Env :=
  {| env_spawn := fun _ _ => not_launched;
     env_readFile := fun _ => inl ENOENT;
     env_readdir := fun _ => inl ENOENT;
     env_homedir := "/root" |}.

Definition start (e : Env) : World :=
  {| env := e; trace := [] |}.

(** What a caller sees of a checker run on a fresh process in environment
    [e]: how it completes and the actions it performed. *)
Definition observe {A : Type} (m : M A) (e : Env)
  : Completion A * list Event :=
  let (r, w) := m (start e) in (r, trace w).

(** A name without a comma in it. *)
Definition comma_free (name : string) : Prop :=
  ~ Substring "," name.

(** Another workstation: [foo] is a newer version, [bar] is not on the
    path at all, gcloud prints a project on stdout but still reports
    [(unset)], and git lists more settings around the same identity. *)
Definition busy_env : Env :=
  {| env_spawn := fun file _ =>
       if file =? "foo" then exited 0 "foo 2.0" "deprecation notice"
       else if file =? "gcloud" then exited 0 "my-project" ("(unset)" ++ nl)
       else if file =? "git"
            then exited 0
                   (("core.editor=vi" ++ nl)
                    ++ ("user.email=x@y.com" ++ nl ++ "user.name=X" ++ nl)
                    ++ "color.ui=auto")
                   "warning: unknown option"
       else not_launched;
     env_readFile := fun _ => inl EACCES;
     env_readdir := fun _ => inl ENOTDIR;
     env_homedir := "/home/ci" |}.


(** ** Substrings *)

Lemma prefix_iff (p s : string) :
  String.prefix p s = true <-> exists rest, s = p ++ rest.
Proof.
  revert s; induction p as [|c p IH]; intros [|d s]; simpl.
  - split; [intros _; now exists "" | reflexivity].
  - split; [intros _; now exists (String d s) | reflexivity].
  - split; [discriminate | intros [rest H]; discriminate].
  - destruct (Ascii.ascii_dec c d) as [->|Hcd].
    + rewrite IH. split; intros [rest H]; exists rest.
      * now rewrite H.
      * now inversion H.
    + split; [discriminate | intros [rest H]; injection H as H1 _; now elim Hcd].
Qed.

Lemma includes_eq (needle hay : string) :
  includes needle hay =
  String.prefix needle hay
  || match hay with
     | EmptyString => false
     | String _ rest => includes needle rest
     end.
Proof. destruct hay; reflexivity. Qed.

Lemma includes_iff (needle hay : string) :
  includes needle hay = true <-> Substring needle hay.
Proof.
  unfold Substring.
  induction hay as [|c hay IH]; rewrite includes_eq, orb_true_iff, prefix_iff.
  - split.
    + intros [[rest H]|H]; [|discriminate]. now exists "", rest.
    + intros [[|d before] [after H]]; simpl in H.
      * left; now exists after.
      * discriminate.
  - rewrite IH. split.
    + intros [[rest H]|[before [after H]]].
      * now exists "", rest.
      * exists (String c before), after. simpl. now rewrite H.
    + intros [[|d before] [after H]]; simpl in H.
      * left; now exists after.
      * right. inversion H. now exists before, after.
Qed.

Lemma includes_false_iff (needle hay : string) :
  includes needle hay = false <-> ~ Substring needle hay.
Proof.
  rewrite <- includes_iff. destruct (includes needle hay); split; intros H;
    try reflexivity; try discriminate; try (intros K; discriminate).
  now elim H.
Qed.

Lemma append_assoc (a b c : string) : (a ++ b) ++ c = a ++ (b ++ c).
Proof. induction a as [|x a IH]; simpl; [reflexivity | now rewrite IH]. Qed.

Lemma Substring_refl (s : string) : Substring s s.
Proof.
  exists "", "". simpl. induction s as [|c s IH]; simpl; [reflexivity|].
  now rewrite <- IH.
Qed.

Lemma Substring_app_l (n a b : string) : Substring n a -> Substring n (a ++ b).
Proof.
  intros [x [y ->]]. exists x, (y ++ b). now rewrite !append_assoc.
Qed.

Lemma Substring_app_r (n a b : string) : Substring n b -> Substring n (a ++ b).
Proof.
  intros [x [y ->]]. exists (a ++ x), y. now rewrite !append_assoc.
Qed.

(** Every element of an array occurs in the array's [toString()]. *)
Lemma Substring_Array_toString (name : string) (a : list string) :
  In name a -> Substring name (Array_toString a).
Proof.
  unfold Array_toString.
  induction a as [|x a IH]; simpl; [contradiction|].
  intros [->|Hin].
  - destruct a; [apply Substring_refl | apply Substring_app_l, Substring_refl].
  - destruct a as [|y a]; [contradiction|].
    apply Substring_app_r, (Substring_app_r name ","). now apply IH.
Qed.

(** ** Worlds *)

Lemma extend_nil (w : World) : w <+ [] = w.
Proof. destruct w; unfold extend; simpl. now rewrite app_nil_r. Qed.

Lemma extend_inj (w : World) (a b : list Event) : w <+ a = w <+ b -> a = b.
Proof.
  unfold extend. intros H. injection H as H. now apply app_inv_head in H.
Qed.

Lemma extend_extend (w : World) (a b : list Event) :
  w <+ a <+ b = w <+ (a ++ b).
Proof. unfold extend; simpl. now rewrite app_assoc. Qed.

(** ** Monad equations *)

Lemma bind_ret_l {A B : Type} (a : A) (k : A -> M B) (w : World) :
  bind (ret a) k w = k a w.
Proof. reflexivity. Qed.

Lemma bind_assoc {A B C : Type} (m : M A) (k : A -> M B) (h : B -> M C)
    (w : World) :
  bind (bind m k) h w = bind m (fun a => bind (k a) h) w.
Proof. unfold bind. now destruct (m w) as [[a|e|code] w']. Qed.

Lemma bind_spawn {B : Type} (file : string) (args : list string)
    (k : SpawnSyncReturns -> M B) (w : World) :
  spawn_refuses file args = false ->
  bind (spawn file args) k w
  = k (env_spawn (env w) file args) (w <+ [EvSpawn file args]).
Proof. intros H. unfold bind, spawn. now rewrite H. Qed.

Lemma bind_spawn_refused {B : Type} (file : string) (args : list string)
    (k : SpawnSyncReturns -> M B) (w : World) :
  spawn_refuses file args = true ->
  bind (spawn file args) k w = (Throw TypeError, w).
Proof. intros H. unfold bind, spawn. now rewrite H. Qed.

(** ** Names the launcher accepts *)

Lemma spawn_refuses_probe (name : string) :
  spawn_refuses name ["--version"] = negb (launchable name).
Proof.
  unfold spawn_refuses, launchable. rewrite negb_involutive.
  change (existsb (includes NUL) ["--version"]) with false.
  now rewrite orb_false_r.
Qed.

Lemma launchable_iff (name : string) :
  launchable name = true <-> Launchable name.
Proof.
  unfold launchable, Launchable.
  rewrite negb_true_iff, orb_false_iff, String.eqb_neq, includes_false_iff.
  reflexivity.
Qed.

Lemma forallb_launchable_iff (names : list string) :
  forallb launchable names = true <-> Forall Launchable names.
Proof.
  rewrite forallb_forall, Forall_forall.
  split; intros H name Hin; apply launchable_iff, H, Hin.
Qed.

Lemma launched_before_refusal_all (names : list string) :
  forallb launchable names = true -> launched_before_refusal names = names.
Proof.
  induction names as [|name rest IH]; simpl; [reflexivity|].
  destruct (launchable name); simpl; [|discriminate].
  intros H. now rewrite IH.
Qed.

Lemma launched_before_refusal_app (first second : list string) :
  forallb launchable first = true ->
  launched_before_refusal (first ++ second)
  = (first ++ launched_before_refusal second)%list.
Proof.
  induction first as [|name rest IH]; simpl; [reflexivity|].
  destruct (launchable name); simpl; [|discriminate].
  intros H. now rewrite IH.
Qed.

Lemma bind_console_log {B : Type} (line : string) (k : unit -> M B)
    (w : World) :
  bind (console_log line) k w = k tt (w <+ [EvLog line]).
Proof. reflexivity. Qed.

Lemma bind_throw {A B : Type} (e : Exn) (k : A -> M B) (w : World) :
  bind (throw e) k w = (Throw e, w).
Proof. reflexivity. Qed.

(** ** Running the checkers *)

Section Properties.

Variables failure warn varFmt : string -> string.

(** The [for ... in] loop of [checkInstalled], started at index
    [length done] with [l] still to visit: it probes the remaining names
    once each, in order, and pushes the failing ones; the first name the
    launcher refuses ends the loop with its exception. *)
Lemma probe_loop (l done acc : list string) (w : World) :
  for_in (seq (List.length done) (List.length l))
    (fun command missingPrereqs =>
       name <- deref (nth_error (done ++ l) command) ;;
       r <- spawn name ["--version"] ;;
       if strict_neq_0 (status r)
       then ret (missingPrereqs ++ [name])%list
       else ret missingPrereqs)
    acc w
  = if forallb launchable l
    then (Normal (acc ++ filter (probe_failed (env w)) l)%list,
          w <+ map probe l)
    else (Throw TypeError, w <+ map probe (launched_before_refusal l)).
Proof.
  revert done acc w.
  induction l as [|name l IH]; intros done acc w.
  - simpl. unfold ret. now rewrite app_nil_r, extend_nil.
  - cbn [List.length seq for_in forallb launched_before_refusal filter map].
    rewrite nth_error_app2, Nat.sub_diag by lia. simpl nth_error.
    rewrite bind_assoc. simpl deref. rewrite bind_ret_l, bind_assoc.
    destruct (launchable name) eqn:Ename.
    + rewrite bind_spawn by (now rewrite spawn_refuses_probe, Ename).
      assert (Hlen : S (List.length done) = List.length (done ++ [name]))
        by (rewrite length_app; simpl; lia).
      assert (Hcat : (done ++ name :: l = (done ++ [name]) ++ l)%list)
        by now rewrite <- app_assoc.
      rewrite Hlen, Hcat. cbn [andb].
      destruct (probe_failed (env w) name) eqn:Efailed;
        unfold probe_failed in Efailed; rewrite Efailed;
        rewrite bind_ret_l, IH;
        change (env (w <+ [EvSpawn name ["--version"]])) with (env w);
        destruct (forallb launchable l);
        rewrite extend_extend; cbn [map app];
        now rewrite <- ?app_assoc.
    + rewrite bind_spawn_refused by (now rewrite spawn_refuses_probe, Ename).
      cbn [andb map]. now rewrite extend_nil.
Qed.

Lemma checkInstalled_run (commandsToCheck : list string) (w : World) :
  checkInstalled failure commandsToCheck w =
  if forallb launchable commandsToCheck
  then
    match filter (probe_failed (env w)) commandsToCheck with
    | [] => (Normal tt, w <+ map probe commandsToCheck)
    | missing =>
        (Halt 1,
         w <+ (map probe commandsToCheck
               ++ [EvLog (failure (missing_message missing)); EvExit 1]))
    end
  else
    (Throw TypeError,
     w <+ map probe (launched_before_refusal commandsToCheck)).
Proof.
  unfold checkInstalled.
  destruct commandsToCheck as [|c l]; [simpl; now rewrite extend_nil|].
  change (List.length (c :: l) =? 0)%nat with false. cbv iota.
  unfold bind at 1, keys.
  pose proof (probe_loop (c :: l) [] [] w) as Hloop.
  change (List.length (@nil string)) with 0 in Hloop.
  change ([] ++ c :: l)%list with (c :: l) in Hloop.
  change ([] ++ filter (probe_failed (env w)) (c :: l))%list
    with (filter (probe_failed (env w)) (c :: l)) in Hloop.
  rewrite Hloop.
  destruct (forallb launchable (c :: l)); [|reflexivity].
  destruct (filter (probe_failed (env w)) (c :: l)) as [|m ms].
  - reflexivity.
  - change (negb (List.length (m :: ms) =? 0)%nat) with true. cbv iota.
    rewrite bind_console_log. unfold process_exit.
    rewrite !extend_extend. reflexivity.
Qed.

Ltac run_body :=
  repeat first
    [ rewrite bind_assoc | rewrite bind_ret_l
    | rewrite bind_spawn by reflexivity
    | rewrite bind_console_log | rewrite bind_throw
    | progress cbv beta iota | progress cbn [deref negb] ].

Lemma checkGcloudProject_run (w : World) :
  checkGcloudProject failure warn w =
  let r := env_spawn (env w) "gcloud" ["config"; "get-value"; "project"] in
  let halted :=
    (Halt 1,
     w <+ [gcloud_query;
           EvLog (gcloud_failure_line failure);
           EvLog (gcloud_hint_init warn);
           EvLog (gcloud_hint_set warn);
           EvExit 1]) in
  if strict_neq_0 (status r) then halted
  else match stderr r with
       | None => (Throw TypeError, w <+ [gcloud_query])
       | Some err =>
           if includes "(unset)" (Buffer_toString err) then halted
           else (Normal tt, w <+ [gcloud_query])
       end.
Proof.
  unfold checkGcloudProject, or_else, gcloud_query. run_body.
  destruct (strict_neq_0 _).
  - run_body. unfold process_exit. now rewrite !extend_extend.
  - destruct (stderr _) as [err|]; simpl deref; run_body; [|reflexivity].
    destruct (includes _ _); run_body; [|reflexivity].
    unfold process_exit. now rewrite !extend_extend.
Qed.

Lemma checkGitConfig_run (w : World) :
  checkGitConfig failure warn varFmt w =
  let r := env_spawn (env w) "git" ["config"; "--list"] in
  let halted :=
    (Halt 1,
     w <+ [git_query;
           EvLog (git_failure_line failure);
           EvLog (git_hint_header warn);
           EvLog (git_hint_email warn varFmt);
           EvLog (git_hint_name warn varFmt);
           EvExit 1]) in
  if strict_neq_0 (status r) then halted
  else match stdout r with
       | None => (Throw TypeError, w <+ [git_query])
       | Some out =>
           if negb (includes "email" (Buffer_toString out)) then halted
           else if negb (includes "name" (Buffer_toString out)) then halted
           else (Normal tt, w <+ [git_query])
       end.
Proof.
  unfold checkGitConfig, or_else, git_query. run_body.
  destruct (strict_neq_0 _).
  - run_body. unfold process_exit. now rewrite !extend_extend.
  - destruct (stdout _) as [out|]; simpl deref; run_body; [|reflexivity].
    destruct (includes "email" _); simpl negb; run_body.
    + destruct (includes "name" _); simpl negb; run_body; [reflexivity|].
      unfold process_exit. now rewrite !extend_extend.
    + unfold process_exit. now rewrite !extend_extend.
Qed.

Lemma checkGitLocalAuth_run (w : World) :
  checkGitLocalAuth failure w =
  let path := env_homedir (env w) ++ "/.gitcookies" in
  let halted :=
    (Halt 1,
     w <+ [EvReadFile path; EvLog (gitcookies_failure_line failure);
           EvExit 1]) in
  match env_readFile (env w) path with
  | inl _ => halted
  | inr data =>
      if includes "source.developers.google.com" (Buffer_toString data)
      then (Normal tt, w <+ [EvReadFile path])
      else halted
  end.
Proof.
  unfold checkGitLocalAuth, os_homedir, try_catch, fs_readFileSync, bind,
    console_log, process_exit, ret.
  cbv beta iota.
  destruct (env_readFile _ _) as [e|data]; cbv beta iota.
  - now rewrite !extend_extend.
  - cbn [deref ret]. unfold ret.
    destruct (includes _ _); cbn [negb]; cbv beta iota; [reflexivity|].
    now rewrite !extend_extend.
Qed.

Lemma checkFileExists_run (file : string) (w : World) :
  checkFileExists file w =
  match env_readFile (env w) file with
  | inl _ => (Normal false, w <+ [EvReadFile file])
  | inr _ => (Normal true, w <+ [EvReadFile file])
  end.
Proof.
  unfold checkFileExists, try_catch, fs_readFileSync, bind, ret.
  now destruct (env_readFile _ _).
Qed.

Lemma checkLocalDir_run (dirName : string) (w : World) :
  checkLocalDir dirName w =
  if includes NUL dirName
  then (Normal (Rejected (ErrorObject TypeError)), w)
  else
    match env_readdir (env w) dirName with
    | inr [] => (Normal (Fulfilled Undefined), w <+ [EvReaddir dirName])
    | _ => (Normal (Rejected Undefined), w <+ [EvReaddir dirName])
    end.
Proof.
  unfold checkLocalDir, new_Promise, fs_readdir.
  destruct (includes NUL dirName); [reflexivity|].
  change (env (w <+ [EvReaddir dirName])) with (env w).
  now destruct (env_readdir _ _) as [e|[|f files]].
Qed.

(** ** Small facts used by the properties *)

Lemma strict_neq_0_false_iff (st : option Z) :
  strict_neq_0 st = false <-> st = Some 0%Z.
Proof.
  destruct st as [z|]; simpl.
  - rewrite negb_false_iff, Z.eqb_eq. split; congruence.
  - split; discriminate.
Qed.

Lemma strict_neq_0_true_iff (st : option Z) :
  strict_neq_0 st = true <-> st <> Some 0%Z.
Proof.
  rewrite <- strict_neq_0_false_iff. now destruct (strict_neq_0 st).
Qed.

Lemma probes_are_queries (l : list string) :
  Forall (fun ev => is_output ev = false) (map probe l).
Proof. induction l; simpl; constructor; auto. Qed.

(** ** Command availability *)

Lemma checkInstalled_run_launchable
    (commandsToCheck : list string) (w : World) :
  Forall Launchable commandsToCheck ->
  checkInstalled failure commandsToCheck w =
  match filter (probe_failed (env w)) commandsToCheck with
  | [] => (Normal tt, w <+ map probe commandsToCheck)
  | missing =>
      (Halt 1,
       w <+ (map probe commandsToCheck
             ++ [EvLog (failure (missing_message missing)); EvExit 1]))
  end.
Proof.
  intros Hok. apply forallb_launchable_iff in Hok.
  now rewrite checkInstalled_run, Hok.
Qed.

(** C1, as amended.  Given names the launcher accepts (not empty, without
    a NUL character), [checkInstalled] probes every name once with the
    single argument [--version], in order; the missing list is the names
    whose probe did not exit with status 0, in the order encountered.  If
    that list is not empty the checker prints one message naming every
    missing name and halts with code 1; if it is empty the checker returns
    with no output and no termination. *)
Theorem checkInstalled_reports_missing
    (commandsToCheck : list string) (w : World) :
  Forall Launchable commandsToCheck ->
  let missing := filter (probe_failed (env w)) commandsToCheck in
  (forall name,
      In name missing <->
      In name commandsToCheck
      /\ status (env_spawn (env w) name ["--version"]) <> Some 0%Z)
  /\ (missing <> [] ->
      checkInstalled failure commandsToCheck w
      = (Halt 1,
         w <+ (map probe commandsToCheck
               ++ [EvLog (failure (missing_message missing)); EvExit 1]))
      /\ forall name,
           In name missing -> Substring name (missing_message missing))
  /\ (missing = [] ->
      checkInstalled failure commandsToCheck w
      = (Normal tt, w <+ map probe commandsToCheck)).
Proof.
  intros Hok missing. split; [|split].
  - intros name. unfold missing. rewrite filter_In. unfold probe_failed.
    now rewrite strict_neq_0_true_iff.
  - intros Hne. rewrite (checkInstalled_run_launchable _ _ Hok). fold missing.
    destruct missing as [|m ms] eqn:E; [contradiction|]. split; [reflexivity|].
    intros name Hin. unfold missing_message.
    apply Substring_app_r, Substring_app_l.
    now apply Substring_Array_toString.
  - intros Hnil. rewrite (checkInstalled_run_launchable _ _ Hok).
    fold missing. now rewrite Hnil.
Qed.

(** C7. Given no command names, [checkInstalled] returns at once: the
    world is untouched, so nothing was launched, printed or halted. *)
Theorem checkInstalled_empty (w : World) :
  checkInstalled failure [] w = (Normal tt, w).
Proof. reflexivity. Qed.

(** ** Cloud CLI readiness *)

(** C2. [checkGcloudProject] passes silently exactly when the project
    query exits with status 0 and its captured stderr does not contain
    [(unset)]; in every other case it prints the failure line and the two
    hints, then halts with code 1. *)
Theorem checkGcloudProject_passes_iff (w : World) :
  let r := env_spawn (env w) "gcloud" ["config"; "get-value"; "project"] in
  let ready :=
    status r = Some 0%Z
    /\ exists err,
         stderr r = Some err
         /\ ~ Substring "(unset)" (Buffer_toString err) in
  streams_captured r ->
  (fst (checkGcloudProject failure warn w) = Normal tt <-> ready)
  /\ (ready ->
      checkGcloudProject failure warn w = (Normal tt, w <+ [gcloud_query]))
  /\ (~ ready ->
      checkGcloudProject failure warn w
      = (Halt 1,
         w <+ [gcloud_query;
               EvLog (gcloud_failure_line failure);
               EvLog (gcloud_hint_init warn);
               EvLog (gcloud_hint_set warn);
               EvExit 1])).
Proof.
  intros r ready Hcap. rewrite checkGcloudProject_run. fold r. cbv zeta.
  destruct (strict_neq_0 (status r)) eqn:Est.
  - apply strict_neq_0_true_iff in Est.
    assert (Hnot : ~ ready) by (intros [H _]; contradiction).
    repeat split; try discriminate; try reflexivity; intros; contradiction.
  - apply strict_neq_0_false_iff in Est.
    destruct (stderr r) as [err|] eqn:Eerr.
    + destruct (includes "(unset)" (Buffer_toString err)) eqn:Einc.
      * apply (proj1 (includes_iff _ _)) in Einc.
        assert (Hnot : ~ ready).
        { intros (_ & err' & Heq & Hno). inversion Heq; subst. contradiction. }
        repeat split; try discriminate; try reflexivity;
          intros; contradiction.
      * apply (proj1 (includes_false_iff _ _)) in Einc.
        assert (Hready : ready) by (split; [assumption | now exists err]).
        repeat split; try reflexivity; try assumption; try (now exists err);
          intros; contradiction.
    + destruct Hcap as [_ Herr]; [congruence | contradiction].
Qed.

(** ** Version-control identity *)

(** C3. [checkGitConfig] passes silently exactly when listing the git
    configuration exits with status 0 and the captured stdout contains both
    [email] and [name]; otherwise it prints the failure line and the
    remediation hints, then halts with code 1. *)
Theorem checkGitConfig_passes_iff (w : World) :
  let r := env_spawn (env w) "git" ["config"; "--list"] in
  let configured :=
    status r = Some 0%Z
    /\ exists out,
         stdout r = Some out
         /\ Substring "email" (Buffer_toString out)
         /\ Substring "name" (Buffer_toString out) in
  streams_captured r ->
  (fst (checkGitConfig failure warn varFmt w) = Normal tt <-> configured)
  /\ (configured ->
      checkGitConfig failure warn varFmt w = (Normal tt, w <+ [git_query]))
  /\ (~ configured ->
      checkGitConfig failure warn varFmt w
      = (Halt 1,
         w <+ [git_query;
               EvLog (git_failure_line failure);
               EvLog (git_hint_header warn);
               EvLog (git_hint_email warn varFmt);
               EvLog (git_hint_name warn varFmt);
               EvExit 1])).
Proof.
  intros r configured Hcap. rewrite checkGitConfig_run. fold r. cbv zeta.
  destruct (strict_neq_0 (status r)) eqn:Est.
  - apply strict_neq_0_true_iff in Est.
    assert (Hnot : ~ configured) by (intros [H _]; contradiction).
    repeat split; try discriminate; try reflexivity; intros; contradiction.
  - apply strict_neq_0_false_iff in Est.
    destruct (stdout r) as [out|] eqn:Eout.
    + destruct (includes "email" (Buffer_toString out)) eqn:Eemail;
        cbn [negb]; cbv iota.
      * apply (proj1 (includes_iff _ _)) in Eemail.
        destruct (includes "name" (Buffer_toString out)) eqn:Ename;
          cbn [negb]; cbv iota.
        -- apply (proj1 (includes_iff _ _)) in Ename.
           assert (Hok : configured)
             by (split; [assumption | now exists out]).
           repeat split; try reflexivity; try assumption;
             try (now exists out); intros; contradiction.
        -- apply (proj1 (includes_false_iff _ _)) in Ename.
           assert (Hnot : ~ configured).
           { intros (_ & o & Heq & _ & Hn). inversion Heq; subst.
             contradiction. }
           repeat split; try discriminate; try reflexivity;
             intros; contradiction.
      * apply (proj1 (includes_false_iff _ _)) in Eemail.
        assert (Hnot : ~ configured).
        { intros (_ & o & Heq & He & _). inversion Heq; subst.
          contradiction. }
        repeat split; try discriminate; try reflexivity;
          intros; contradiction.
    + destruct Hcap as [Hout _]; [congruence | contradiction].
Qed.

(** ** Remote authentication cookies *)

(** C4. [checkGitLocalAuth] reads [<home directory>/.gitcookies].  If the
    read fails, whatever the cause, or succeeds with a content that lacks
    [source.developers.google.com], it prints the same single failure line
    and halts with code 1; if the content has the marker it returns
    silently. *)
Theorem checkGitLocalAuth_spec (w : World) :
  let path := env_homedir (env w) ++ "/.gitcookies" in
  let halted :=
    (Halt 1,
     w <+ [EvReadFile path; EvLog (gitcookies_failure_line failure);
           EvExit 1]) in
  (forall e,
      env_readFile (env w) path = inl e ->
      checkGitLocalAuth failure w = halted)
  /\ (forall data,
        env_readFile (env w) path = inr data ->
        ~ Substring "source.developers.google.com" (Buffer_toString data) ->
        checkGitLocalAuth failure w = halted)
  /\ (forall data,
        env_readFile (env w) path = inr data ->
        Substring "source.developers.google.com" (Buffer_toString data) ->
        checkGitLocalAuth failure w = (Normal tt, w <+ [EvReadFile path])).
Proof.
  intros path halted. rewrite checkGitLocalAuth_run. fold path. cbv zeta.
  repeat split.
  - intros e ->. reflexivity.
  - intros data -> Hno. apply includes_false_iff in Hno. now rewrite Hno.
  - intros data -> Hyes. apply includes_iff in Hyes. now rewrite Hyes.
Qed.

(** ** File system preconditions *)

(** C5. [checkFileExists] returns [true] if reading the file succeeds and
    [false] if the read fails, whatever the error; it always returns: it
    neither throws nor halts the process. *)
Theorem checkFileExists_spec (file : string) (w : World) :
  (forall data,
      env_readFile (env w) file = inr data ->
      checkFileExists file w = (Normal true, w <+ [EvReadFile file]))
  /\ (forall e,
        env_readFile (env w) file = inl e ->
        checkFileExists file w = (Normal false, w <+ [EvReadFile file]))
  /\ exists b, checkFileExists file w = (Normal b, w <+ [EvReadFile file]).
Proof.
  rewrite checkFileExists_run. repeat split.
  - now intros data ->.
  - now intros e ->.
  - destruct (env_readFile (env w) file); [now exists false | now exists true].
Qed.

(** C6, as amended.  For a path without a NUL character the promise of
    [checkLocalDir] is fulfilled exactly when the listing succeeds with zero
    entries; it is rejected when the listing has entries or fails, whatever
    the error, and the rejection reason is then [undefined].  For a path
    with a NUL character nothing is listed and the promise is rejected with
    the [TypeError] that [fs.readdir] throws. *)
Theorem checkLocalDir_settles (dirName : string) (w : World) :
  (~ Substring NUL dirName ->
   exists settled,
     checkLocalDir dirName w = (Normal settled, w <+ [EvReaddir dirName])
     /\ ((exists value, settled = Fulfilled value) <->
         env_readdir (env w) dirName = inr [])
     /\ (env_readdir (env w) dirName = inr [] ->
         settled = Fulfilled Undefined)
     /\ (forall file files,
           env_readdir (env w) dirName = inr (file :: files) ->
           settled = Rejected Undefined)
     /\ (forall e,
           env_readdir (env w) dirName = inl e ->
           settled = Rejected Undefined))
  /\ (Substring NUL dirName ->
      checkLocalDir dirName w
      = (Normal (Rejected (ErrorObject TypeError)), w)).
Proof.
  rewrite checkLocalDir_run. split.
  - intros Hok. apply includes_false_iff in Hok. rewrite Hok.
    destruct (env_readdir (env w) dirName) as [e|[|f files]] eqn:E.
    + exists (Rejected Undefined). repeat split; try discriminate; auto.
      intros [v Hv]. discriminate.
    + exists (Fulfilled Undefined). repeat split; try discriminate; auto.
      now exists Undefined.
    + exists (Rejected Undefined). repeat split; try discriminate; auto.
      intros [v Hv]. discriminate.
  - intros Hnul. apply includes_iff in Hnul. now rewrite Hnul.
Qed.

(** ** Conventions shared by the checkers *)

(** How [fails_loudly] is established from one run and a decision about
    the failing condition. *)
Lemma fails_loudly_from_run (m : M unit) (w : World) (failing : Prop)
    (queries : list Event) (lines : list string)
    (r : Completion unit) (evs : list Event) :
  Forall (fun ev => is_output ev = false) queries ->
  lines <> [] ->
  m w = (r, w <+ evs) ->
  (failing ->
   r = Halt 1 /\ evs = (queries ++ map EvLog lines ++ [EvExit 1])%list) ->
  failing
  \/ (~ failing
      /\ (forall code, r <> Halt code)
      /\ Forall (fun ev => is_output ev = false) evs) ->
  fails_loudly m w failing queries lines.
Proof.
  intros Hq Hl Hrun Hfail Hdec. repeat split; try assumption.
  - intros Hf. destruct (Hfail Hf) as [-> ->]. exact Hrun.
  - intros r' evs' Hrun' Hloud.
    destruct Hdec as [Hf|(Hnf & Hnohalt & Hquiet)]; [assumption|].
    rewrite Hrun in Hrun'.
    assert (Hr : r = r') by congruence.
    assert (Hw : w <+ evs = w <+ evs') by congruence.
    apply extend_inj in Hw. subst r' evs'.
    destruct Hloud as [Hout|[code Hcode]].
    + apply Exists_exists in Hout. destruct Hout as (ev & Hin & Hev).
      rewrite Forall_forall in Hquiet. rewrite (Hquiet ev Hin) in Hev.
      discriminate.
    + now elim (Hnohalt code).
Qed.

(** C8. In each of the four fatal checkers the failing branch prints all
    of its lines, in order, before it halts with code 1; halting is the
    last action and the checker does not come back: the completion is the
    halt, neither a return nor an exception.  Nothing is printed and nothing
    halts outside the failing branch. *)
Theorem fatal_checkers_halt_last
    (commandsToCheck : list string) (w : World) :
  let missing := filter (probe_failed (env w)) commandsToCheck in
  let gcloud := env_spawn (env w) "gcloud" ["config"; "get-value"; "project"] in
  let cookies := env_homedir (env w) ++ "/.gitcookies" in
  let git := env_spawn (env w) "git" ["config"; "--list"] in
  fails_loudly (checkInstalled failure commandsToCheck) w
    (Forall Launchable commandsToCheck /\ missing <> [])
    (map probe commandsToCheck)
    [failure (missing_message missing)]
  /\ fails_loudly (checkGcloudProject failure warn) w
       (status gcloud <> Some 0%Z
        \/ exists err,
             stderr gcloud = Some err
             /\ Substring "(unset)" (Buffer_toString err))
       [gcloud_query]
       [gcloud_failure_line failure; gcloud_hint_init warn;
        gcloud_hint_set warn]
  /\ fails_loudly (checkGitLocalAuth failure) w
       ((exists e, env_readFile (env w) cookies = inl e)
        \/ exists data,
             env_readFile (env w) cookies = inr data
             /\ ~ Substring "source.developers.google.com"
                    (Buffer_toString data))
       [EvReadFile cookies]
       [gitcookies_failure_line failure]
  /\ fails_loudly (checkGitConfig failure warn varFmt) w
       (status git <> Some 0%Z
        \/ exists out,
             stdout git = Some out
             /\ ~ (Substring "email" (Buffer_toString out)
                   /\ Substring "name" (Buffer_toString out)))
       [git_query]
       [git_failure_line failure; git_hint_header warn;
        git_hint_email warn varFmt; git_hint_name warn varFmt].
Proof.
  intros missing gcloud cookies git.
  split; [|split; [|split]].
  - pose proof (checkInstalled_run commandsToCheck w) as Hrun.
    fold missing in Hrun.
    destruct (forallb launchable commandsToCheck) eqn:Eok.
    + apply forallb_launchable_iff in Eok.
      destruct missing as [|m ms] eqn:Emiss.
      * eapply fails_loudly_from_run;
          [apply probes_are_queries | discriminate | exact Hrun | |].
        -- intros [_ H]. now elim H.
        -- right. split; [intros [_ H]; now elim H|].
           split; [discriminate | apply probes_are_queries].
      * eapply fails_loudly_from_run;
          [apply probes_are_queries | discriminate | exact Hrun | |].
        -- intros _. now split.
        -- left. split; [assumption | discriminate].
    + assert (Hnot : ~ Forall Launchable commandsToCheck).
      { intros H. apply forallb_launchable_iff in H. congruence. }
      eapply fails_loudly_from_run;
        [apply probes_are_queries | discriminate | exact Hrun | |].
      * intros [H _]. contradiction.
      * right. split; [intros [H _]; contradiction|].
        split; [discriminate | apply probes_are_queries].
  - pose proof (checkGcloudProject_run w) as Hrun. cbv zeta in Hrun.
    fold gcloud in Hrun.
    destruct (strict_neq_0 (status gcloud)) eqn:Est.
    + apply strict_neq_0_true_iff in Est.
      eapply fails_loudly_from_run;
        [repeat constructor | discriminate | exact Hrun | |].
      * intros _. now split.
      * now left; left.
    + apply strict_neq_0_false_iff in Est.
      destruct (stderr gcloud) as [err|] eqn:Eerr.
      * destruct (includes "(unset)" (Buffer_toString err)) eqn:Einc.
        -- apply (proj1 (includes_iff _ _)) in Einc.
           eapply fails_loudly_from_run;
             [repeat constructor | discriminate | exact Hrun | |].
           ++ intros _. now split.
           ++ left; right. now exists err.
        -- apply (proj1 (includes_false_iff _ _)) in Einc.
           assert (Hnot : ~ (status gcloud <> Some 0%Z
                             \/ exists err0,
                                  Some err = Some err0
                                  /\ Substring "(unset)"
                                       (Buffer_toString err0))).
           { intros [H|(err0 & Heq & H)]; [contradiction|].
             injection Heq as <-. contradiction. }
           eapply fails_loudly_from_run;
             [repeat constructor | discriminate | exact Hrun | |].
           ++ intros H. contradiction.
           ++ right. split; [assumption|].
              split; [discriminate | repeat constructor].
      * assert (Hnot : ~ (status gcloud <> Some 0%Z
                          \/ exists err0,
                               @None Buffer = Some err0
                               /\ Substring "(unset)"
                                    (Buffer_toString err0))).
        { intros [H|(err0 & Heq & _)]; [contradiction | discriminate]. }
        eapply fails_loudly_from_run;
          [repeat constructor | discriminate | exact Hrun | |].
        -- intros H. contradiction.
        -- right. split; [assumption|].
           split; [discriminate | repeat constructor].
  - pose proof (checkGitLocalAuth_run w) as Hrun. cbv zeta in Hrun.
    fold cookies in Hrun.
    destruct (env_readFile (env w) cookies) as [e|data] eqn:Eread.
    + eapply fails_loudly_from_run;
        [repeat constructor | discriminate | exact Hrun | |].
      * intros _. now split.
      * left; left. now exists e.
    + destruct (includes "source.developers.google.com"
                  (Buffer_toString data)) eqn:Einc.
      * apply (proj1 (includes_iff _ _)) in Einc.
        assert (Hnot : ~ ((exists e, @inr FsError Buffer data = inl e)
                          \/ exists data0,
                               @inr FsError Buffer data = inr data0
                               /\ ~ Substring "source.developers.google.com"
                                      (Buffer_toString data0))).
        { intros [[e He]|(data0 & Heq & H)]; [discriminate|].
          injection Heq as <-. contradiction. }
        eapply fails_loudly_from_run;
          [repeat constructor | discriminate | exact Hrun | |].
        -- intros H. contradiction.
        -- right. split; [assumption|].
           split; [discriminate | repeat constructor].
      * apply (proj1 (includes_false_iff _ _)) in Einc.
        eapply fails_loudly_from_run;
          [repeat constructor | discriminate | exact Hrun | |].
        -- intros _. now split.
        -- left; right. now exists data.
  - pose proof (checkGitConfig_run w) as Hrun. cbv zeta in Hrun.
    fold git in Hrun.
    destruct (strict_neq_0 (status git)) eqn:Est.
    + apply strict_neq_0_true_iff in Est.
      eapply fails_loudly_from_run;
        [repeat constructor | discriminate | exact Hrun | |].
      * intros _. now split.
      * now left; left.
    + apply strict_neq_0_false_iff in Est.
      destruct (stdout git) as [out|] eqn:Eout.
      * destruct (includes "email" (Buffer_toString out)) eqn:Eemail;
          cbn [negb] in Hrun; cbv iota in Hrun.
        -- apply (proj1 (includes_iff _ _)) in Eemail.
           destruct (includes "name" (Buffer_toString out)) eqn:Ename;
             cbn [negb] in Hrun; cbv iota in Hrun.
           ++ apply (proj1 (includes_iff _ _)) in Ename.
              assert (Hnot : ~ (status git <> Some 0%Z
                                \/ exists out0,
                                     Some out = Some out0
                                     /\ ~ (Substring "email"
                                             (Buffer_toString out0)
                                           /\ Substring "name"
                                                (Buffer_toString out0)))).
              { intros [H|(out0 & Heq & H)]; [contradiction|].
                injection Heq as <-. apply H. now split. }
              eapply fails_loudly_from_run;
                [repeat constructor | discriminate | exact Hrun | |].
              ** intros H. contradiction.
              ** right. split; [assumption|].
                 split; [discriminate | repeat constructor].
           ++ apply (proj1 (includes_false_iff _ _)) in Ename.
              eapply fails_loudly_from_run;
                [repeat constructor | discriminate | exact Hrun | |].
              ** intros _. now split.
              ** left; right. exists out. split; [reflexivity|].
                 intros [_ H]. contradiction.
        -- apply (proj1 (includes_false_iff _ _)) in Eemail.
           eapply fails_loudly_from_run;
             [repeat constructor | discriminate | exact Hrun | |].
           ++ intros _. now split.
           ++ left; right. exists out. split; [reflexivity|].
              intros [H _]. contradiction.
      * assert (Hnot : ~ (status git <> Some 0%Z
                          \/ exists out0,
                               @None Buffer = Some out0
                               /\ ~ (Substring "email" (Buffer_toString out0)
                                     /\ Substring "name"
                                          (Buffer_toString out0)))).
        { intros [H|(out0 & Heq & _)]; [contradiction | discriminate]. }
        eapply fails_loudly_from_run;
          [repeat constructor | discriminate | exact Hrun | |].
        -- intros H. contradiction.
        -- right. split; [assumption|].
           split; [discriminate | repeat constructor].
Qed.

(** C9. The outcome of each of the six exported checkers is decided by
    its arguments and by the answers to the queries it makes, and by nothing
    else: two runs, started after any histories and in environments that
    give identical answers to those queries, complete the same way (same
    value, same termination, same settlement) with the same actions, and
    each leaves its environment as it was. *)
Theorem checkers_repeatable
    (commandsToCheck : list string) (file dirName : string)
    (w1 w2 : World) :
  ((forall name,
       In name commandsToCheck ->
       env_spawn (env w1) name ["--version"]
       = env_spawn (env w2) name ["--version"]) ->
   same_run (checkInstalled failure commandsToCheck) w1 w2)
  /\ (env_spawn (env w1) "gcloud" ["config"; "get-value"; "project"]
      = env_spawn (env w2) "gcloud" ["config"; "get-value"; "project"] ->
      same_run (checkGcloudProject failure warn) w1 w2)
  /\ (env_readdir (env w1) dirName = env_readdir (env w2) dirName ->
      same_run (checkLocalDir dirName) w1 w2)
  /\ (env_readFile (env w1) file = env_readFile (env w2) file ->
      same_run (checkFileExists file) w1 w2)
  /\ (env_homedir (env w1) = env_homedir (env w2) ->
      env_readFile (env w1) (env_homedir (env w1) ++ "/.gitcookies")
      = env_readFile (env w2) (env_homedir (env w2) ++ "/.gitcookies") ->
      same_run (checkGitLocalAuth failure) w1 w2)
  /\ (env_spawn (env w1) "git" ["config"; "--list"]
      = env_spawn (env w2) "git" ["config"; "--list"] ->
      same_run (checkGitConfig failure warn varFmt) w1 w2).
Proof.
  unfold same_run. repeat split.
  - intros Hsame. rewrite !checkInstalled_run.
    assert (Hfilter : filter (probe_failed (env w1)) commandsToCheck
                      = filter (probe_failed (env w2)) commandsToCheck).
    { apply filter_ext_in. intros name Hin. unfold probe_failed.
      now rewrite (Hsame name Hin). }
    rewrite Hfilter. clear Hfilter.
    destruct (forallb launchable commandsToCheck); [|do 2 eexists; split; reflexivity].
    destruct (filter _ _); do 2 eexists; split; reflexivity.
  - intros Hsame. rewrite !checkGcloudProject_run. cbv zeta. rewrite Hsame. clear Hsame.
    destruct (strict_neq_0 _); [do 2 eexists; split; reflexivity|].
    destruct (stderr _); [|do 2 eexists; split; reflexivity]. destruct (includes _ _); do 2 eexists; split; reflexivity.
  - intros Hsame. rewrite !checkLocalDir_run, Hsame. clear Hsame.
    destruct (includes NUL dirName).
    + exists (Normal (Rejected (ErrorObject TypeError))), [].
      now rewrite !extend_nil.
    + destruct (env_readdir _ _) as [?|[|? ?]]; do 2 eexists; split; reflexivity.
  - intros Hsame. rewrite !checkFileExists_run, Hsame. clear Hsame.
    destruct (env_readFile _ _); do 2 eexists; split; reflexivity.
  - intros Hhome Hsame. rewrite !checkGitLocalAuth_run. cbv zeta.
    rewrite Hhome in Hsame |- *. rewrite Hsame. clear Hsame Hhome.
    destruct (env_readFile _ _); [do 2 eexists; split; reflexivity|]. destruct (includes _ _); do 2 eexists; split; reflexivity.
  - intros Hsame. rewrite !checkGitConfig_run. cbv zeta. rewrite Hsame. clear Hsame.
    destruct (strict_neq_0 _); [do 2 eexists; split; reflexivity|].
    destruct (stdout _); [|do 2 eexists; split; reflexivity].
    destruct (includes "email" _); cbn [negb]; cbv iota; [|do 2 eexists; split; reflexivity].
    destruct (includes "name" _); cbn [negb]; cbv iota; do 2 eexists; split; reflexivity.
Qed.

(** C10. In [checkGcloudProject] and [checkGitConfig] the captured stream
    is looked at only when the exit status is 0: whenever the status is
    not 0, in particular when the child failed to launch and status and
    streams are all [null], the check prints its lines and halts with
    code 1, whatever the streams are; it does not throw. *)
Theorem unlaunched_child_halts (w : World) :
  (status (env_spawn (env w) "gcloud" ["config"; "get-value"; "project"])
   <> Some 0%Z ->
   checkGcloudProject failure warn w
   = (Halt 1,
      w <+ [gcloud_query;
            EvLog (gcloud_failure_line failure);
            EvLog (gcloud_hint_init warn);
            EvLog (gcloud_hint_set warn);
            EvExit 1]))
  /\ (status (env_spawn (env w) "git" ["config"; "--list"]) <> Some 0%Z ->
      checkGitConfig failure warn varFmt w
      = (Halt 1,
         w <+ [git_query;
               EvLog (git_failure_line failure);
               EvLog (git_hint_header warn);
               EvLog (git_hint_email warn varFmt);
               EvLog (git_hint_name warn varFmt);
               EvExit 1])).
Proof.
  split; intros Hst; apply strict_neq_0_true_iff in Hst.
  - rewrite checkGcloudProject_run. cbv zeta. now rewrite Hst.
  - rewrite checkGitConfig_run. cbv zeta. now rewrite Hst.
Qed.

End Properties.

(** ** The properties at work on the sample environments *)

Lemma demo_env_is_node_env : node_env demo_env.
Proof.
  intros file args. unfold demo_env, env_spawn.
  repeat match goal with
         | |- context [if ?c then _ else _] => destruct c
         end;
    intros H; try (split; discriminate); now elim H.
Qed.

(** [foo] runs and [bar] does not: the message names [bar] only. *)
Lemma checkInstalled_reports_missing_witness :
  Forall Launchable ["foo"; "bar"]
  /\ filter (probe_failed demo_env) ["foo"; "bar"] <> []
  /\ checkInstalled plain ["foo"; "bar"] (start demo_env)
     = (Halt 1,
        start demo_env
        <+ [probe "foo"; probe "bar";
            EvLog "Required pre-requisites not installed: bar. Exiting...";
            EvExit 1]).
Proof.
  assert (Hok : Forall Launchable ["foo"; "bar"])
    by (apply forallb_launchable_iff; reflexivity).
  assert (Hne : filter (probe_failed demo_env) ["foo"; "bar"] <> [])
    by (vm_compute; discriminate).
  split; [exact Hok|]. split; [exact Hne|].
  destruct (checkInstalled_reports_missing plain ["foo"; "bar"]
              (start demo_env) Hok) as (_ & Hmissing & _).
  destruct (Hmissing Hne) as [Hrun _]. exact Hrun.
Defined.

(** The empty name is refused by the launcher: although its probe counts
    as failed, nothing is printed and the process is not halted; the
    [TypeError] reaches the caller. *)
Lemma checkInstalled_refused_name_throws :
  filter (probe_failed bare_env) [""] <> []
  /\ checkInstalled plain [""] (start bare_env)
     <> (Halt 1,
         start bare_env
         <+ (map probe [""]
             ++ [EvLog (plain (missing_message
                                 (filter (probe_failed bare_env) [""])));
                 EvExit 1]))
  /\ checkInstalled plain [""] (start bare_env)
     = (Throw TypeError, start bare_env).
Proof.
  split; [vm_compute; discriminate|].
  split; [vm_compute; discriminate | reflexivity].
Qed.

(** gcloud exits with 0 but reports [(unset)]: the check halts. *)
Lemma checkGcloudProject_passes_iff_witness :
  streams_captured
    (env_spawn demo_env "gcloud" ["config"; "get-value"; "project"])
  /\ checkGcloudProject plain plain (start demo_env)
     = (Halt 1,
        start demo_env
        <+ [gcloud_query;
            EvLog "The gcloud command does not appear to be initialized fully: no project is configured. Exiting...";
            EvLog "To fully initialize gcloud: gcloud init";
            EvLog "To set a project: gcloud config set project [NAME]";
            EvExit 1]).
Proof.
  assert (Hcap : streams_captured
                   (env_spawn demo_env "gcloud"
                      ["config"; "get-value"; "project"]))
    by apply demo_env_is_node_env.
  split; [exact Hcap|].
  destruct (checkGcloudProject_passes_iff plain plain (start demo_env) Hcap)
    as (_ & _ & Hhalt).
  apply Hhalt. intros (_ & err & Herr & Hno).
  injection Herr as <-. apply Hno, includes_iff. reflexivity.
Defined.

(** git lists both an email and a name: the check passes silently. *)
Lemma checkGitConfig_passes_iff_witness :
  streams_captured (env_spawn demo_env "git" ["config"; "--list"])
  /\ checkGitConfig plain plain plain (start demo_env)
     = (Normal tt, start demo_env <+ [git_query]).
Proof.
  assert (Hcap : streams_captured
                   (env_spawn demo_env "git" ["config"; "--list"]))
    by apply demo_env_is_node_env.
  split; [exact Hcap|].
  destruct (checkGitConfig_passes_iff plain plain plain (start demo_env) Hcap)
    as (_ & Hpass & _).
  apply Hpass. split; [reflexivity|].
  eexists. split; [reflexivity|]. split; apply includes_iff; reflexivity.
Defined.

(** No cookie file on the bare machine: one line, then exit code 1. *)
Lemma checkGitLocalAuth_spec_witness :
  env_readFile bare_env "/root/.gitcookies" = inl ENOENT
  /\ checkGitLocalAuth plain (start bare_env)
     = (Halt 1,
        start bare_env
        <+ [EvReadFile "/root/.gitcookies";
            EvLog (gitcookies_failure_line plain);
            EvExit 1]).
Proof.
  split; [reflexivity|].
  destruct (checkGitLocalAuth_spec plain (start bare_env)) as (Hfail & _ & _).
  exact (Hfail ENOENT eq_refl).
Defined.

Lemma checkFileExists_spec_witness :
  env_readFile bare_env "/etc/crbt.yaml" = inl ENOENT
  /\ checkFileExists "/etc/crbt.yaml" (start bare_env)
     = (Normal false, start bare_env <+ [EvReadFile "/etc/crbt.yaml"]).
Proof.
  split; [reflexivity|].
  destruct (checkFileExists_spec "/etc/crbt.yaml" (start bare_env))
    as (_ & Hfail & _).
  exact (Hfail ENOENT eq_refl).
Defined.

Lemma checkLocalDir_settles_witness :
  ~ Substring NUL "/tmp/full"
  /\ env_readdir demo_env "/tmp/full" = inr ["a.txt"]
  /\ checkLocalDir "/tmp/full" (start demo_env)
     = (Normal (Rejected Undefined), start demo_env <+ [EvReaddir "/tmp/full"]).
Proof.
  assert (Hok : ~ Substring NUL "/tmp/full")
    by (apply includes_false_iff; reflexivity).
  split; [exact Hok|]. split; [reflexivity|].
  destruct (proj1 (checkLocalDir_settles "/tmp/full" (start demo_env)) Hok)
    as (settled & Hrun & _ & _ & Hfull & _).
  rewrite Hrun. now rewrite (Hfull "a.txt" [] eq_refl).
Defined.

(** A path with a NUL character: the promise is rejected with the
    [TypeError], not with [undefined], and nothing is listed. *)
Lemma checkLocalDir_rejects_with_error :
  checkLocalDir ("/tmp/" ++ NUL) (start demo_env)
  = (Normal (Rejected (ErrorObject TypeError)), start demo_env)
  /\ fst (checkLocalDir ("/tmp/" ++ NUL) (start demo_env))
     <> Normal (Rejected Undefined).
Proof. split; [reflexivity | discriminate]. Qed.

(** gcloud reports [(unset)] on [demo_env]: the three lines, then the
    exit. *)
Lemma fatal_checkers_halt_last_witness :
  (exists err,
      stderr (env_spawn demo_env "gcloud" ["config"; "get-value"; "project"])
      = Some err
      /\ Substring "(unset)" (Buffer_toString err))
  /\ checkGcloudProject plain plain (start demo_env)
     = (Halt 1,
        start demo_env
        <+ ([gcloud_query]
            ++ map EvLog [gcloud_failure_line plain; gcloud_hint_init plain;
                          gcloud_hint_set plain]
            ++ [EvExit 1])).
Proof.
  assert (Hunset :
    exists err,
      stderr (env_spawn demo_env "gcloud" ["config"; "get-value"; "project"])
      = Some err
      /\ Substring "(unset)" (Buffer_toString err)).
  { eexists. split; [reflexivity|]. apply includes_iff. reflexivity. }
  split; [exact Hunset|].
  pose proof (fatal_checkers_halt_last plain plain plain ["foo"; "bar"]
                (start demo_env)) as H.
  cbv zeta in H. destruct H as (_ & (_ & _ & Hfail & _) & _).
  apply Hfail. right. exact Hunset.
Defined.

(** A missing directory on two different machines, the second one after
    some output: the same rejection, the same single action. *)
Lemma checkers_repeatable_witness :
  env_readdir demo_env "/nowhere" = env_readdir bare_env "/nowhere"
  /\ same_run (checkLocalDir "/nowhere")
       (start demo_env) (start bare_env <+ [EvLog "earlier output"]).
Proof.
  split; [reflexivity|].
  destruct (checkers_repeatable plain plain plain ["foo"] "/a" "/nowhere"
              (start demo_env) (start bare_env <+ [EvLog "earlier output"]))
    as (_ & _ & Hdir & _).
  exact (Hdir eq_refl).
Defined.

(** Nothing can be launched on the bare machine: status and streams are all
    [null], and both checks halt with code 1. *)
Lemma unlaunched_child_halts_witness :
  env_spawn bare_env "gcloud" ["config"; "get-value"; "project"]
  = {| status := None; stdout := None; stderr := None |}
  /\ env_spawn bare_env "git" ["config"; "--list"]
     = {| status := None; stdout := None; stderr := None |}
  /\ checkGcloudProject plain plain (start bare_env)
     = (Halt 1,
        start bare_env
        <+ [gcloud_query;
            EvLog (gcloud_failure_line plain);
            EvLog (gcloud_hint_init plain);
            EvLog (gcloud_hint_set plain);
            EvExit 1])
  /\ checkGitConfig plain plain plain (start bare_env)
     = (Halt 1,
        start bare_env
        <+ [git_query;
            EvLog (git_failure_line plain);
            EvLog (git_hint_header plain);
            EvLog (git_hint_email plain plain);
            EvLog (git_hint_name plain plain);
            EvExit 1]).
Proof.
  split; [reflexivity|]. split; [reflexivity|].
  destruct (unlaunched_child_halts plain plain plain (start bare_env))
    as (Hgcloud & Hgit).
  split; [apply Hgcloud | apply Hgit]; discriminate.
Defined.

(** ** The specification's test cases, evaluated *)

Example all_probes_pass :
  checkInstalled plain ["foo"; "gcloud"; "git"] (start demo_env)
  = (Normal tt, start demo_env <+ [probe "foo"; probe "gcloud"; probe "git"]).
Proof. reflexivity. Qed.

Example gcloud_with_empty_stderr_passes :
  let e := {| env_spawn := fun _ _ => exited 0 "my-project" "";
              env_readFile := env_readFile bare_env;
              env_readdir := env_readdir bare_env;
              env_homedir := "/root" |} in
  checkGcloudProject plain plain (start e)
  = (Normal tt, start e <+ [gcloud_query]).
Proof. reflexivity. Qed.

Example git_with_email_only_halts :
  let e := {| env_spawn := fun _ _ => exited 0 "user.email=x@y.com" "";
              env_readFile := env_readFile bare_env;
              env_readdir := env_readdir bare_env;
              env_homedir := "/root" |} in
  fst (checkGitConfig plain plain plain (start e)) = Halt 1.
Proof. reflexivity. Qed.

Example existing_file_is_found :
  fst (checkFileExists "/home/dev/.gitcookies" (start demo_env)) = Normal true.
Proof. reflexivity. Qed.

Example empty_directory_resolves :
  fst (checkLocalDir "/tmp/empty" (start demo_env))
  = Normal (Fulfilled Undefined).
Proof. reflexivity. Qed.

Example missing_directory_rejects :
  fst (checkLocalDir "/nowhere" (start demo_env))
  = Normal (Rejected Undefined).
Proof. reflexivity. Qed.

(** Outside what [spawnSync] can return: a status of 0 with a [null]
    stderr would make [checkGcloudProject] throw on [.toString()]. *)
Example null_stderr_with_status_0_throws :
  let e := {| env_spawn := fun _ _ =>
                {| status := Some 0%Z; stdout := None; stderr := None |};
              env_readFile := env_readFile bare_env;
              env_readdir := env_readdir bare_env;
              env_homedir := "/root" |} in
  fst (checkGcloudProject plain plain (start e)) = Throw TypeError.
Proof. reflexivity. Qed.

(** ** Further properties of the checkers *)

Lemma Permutation_filter' {A : Type} (f : A -> bool) (l l' : list A) :
  Permutation l l' -> Permutation (filter f l) (filter f l').
Proof.
  induction 1 as [|x l l' _ IH|x y l|l l' l'' _ IH1 _ IH2]; simpl.
  - constructor.
  - destruct (f x); [now constructor | assumption].
  - destruct (f x), (f y); try reflexivity. apply perm_swap.
  - now transitivity (filter f l').
Qed.

Section Further.

Variables failure warn varFmt : string -> string.

Lemma forallb_Permutation {A : Type} (f : A -> bool) (l l' : list A) :
  Permutation l l' -> forallb f l = forallb f l'.
Proof.
  induction 1 as [|x l l' _ IH|x y l|l l' l'' _ IH1 _ IH2]; simpl.
  - reflexivity.
  - now rewrite IH.
  - now destruct (f x), (f y).
  - congruence.
Qed.

(** [checkInstalled] returns exactly when every name was accepted and no
    probe failed. *)
Lemma checkInstalled_returns_iff (commandsToCheck : list string) (w : World) :
  fst (checkInstalled failure commandsToCheck w) = Normal tt
  <-> forallb launchable commandsToCheck = true
      /\ filter (probe_failed (env w)) commandsToCheck = [].
Proof.
  rewrite checkInstalled_run.
  destruct (forallb launchable commandsToCheck);
    [|split; [discriminate | intros [H _]; discriminate]].
  destruct (filter _ _); simpl; split;
    try discriminate; try (intros [_ H]; discriminate); auto.
Qed.

(** X1. The order of the command names does not change the verdict of
    [checkInstalled]: a reordered list halts or returns alike, and the
    missing names are the same up to order. *)
Theorem checkInstalled_order_irrelevant
    (commandsToCheck reordered : list string) (w : World) :
  Permutation commandsToCheck reordered ->
  fst (checkInstalled failure commandsToCheck w)
  = fst (checkInstalled failure reordered w)
  /\ Permutation (filter (probe_failed (env w)) commandsToCheck)
                 (filter (probe_failed (env w)) reordered).
Proof.
  intros Hperm.
  pose proof (Permutation_filter' (probe_failed (env w)) _ _ Hperm) as Hmiss.
  split; [|assumption].
  rewrite !checkInstalled_run.
  rewrite <- (forallb_Permutation launchable _ _ Hperm).
  destruct (forallb launchable commandsToCheck); [|reflexivity].
  destruct (filter _ commandsToCheck) as [|m ms].
  - apply Permutation_nil in Hmiss. now rewrite Hmiss.
  - destruct (filter _ reordered) as [|m' ms']; [|reflexivity].
    symmetry in Hmiss. apply Permutation_nil in Hmiss. discriminate.
Qed.

(** X2. Checking two lists one after the other against checking them in
    one call: the single call returns exactly when both separate calls
    would, and when the first list passes the two ways of calling are the
    same run, action for action. *)
Theorem checkInstalled_split (first second : list string) (w : World) :
  (fst (checkInstalled failure (first ++ second) w) = Normal tt
   <-> fst (checkInstalled failure first w) = Normal tt
       /\ fst (checkInstalled failure second w) = Normal tt)
  /\ (fst (checkInstalled failure first w) = Normal tt ->
      (checkInstalled failure first ;; checkInstalled failure second) w
      = checkInstalled failure (first ++ second) w).
Proof.
  split.
  - rewrite !checkInstalled_returns_iff, filter_app, forallb_app,
      andb_true_iff. split.
    + intros [[H1 H2] H]. apply app_eq_nil in H. tauto.
    + intros [[H1 ->] [H2 ->]]. auto.
  - intros Hfirst. apply checkInstalled_returns_iff in Hfirst.
    destruct Hfirst as [Hok Hfirst].
    unfold bind. rewrite (checkInstalled_run failure first w), Hok, Hfirst.
    rewrite !checkInstalled_run, filter_app, forallb_app, Hok.
    rewrite (launched_before_refusal_app _ _ Hok).
    change (env (w <+ map probe first)) with (env w).
    rewrite Hfirst. cbn [app andb].
    destruct (forallb launchable second);
      [destruct (filter _ second) as [|m ms]|];
      now rewrite extend_extend, map_app, <- ?app_assoc.
Qed.

(** X3. [checkInstalled] looks at nothing but whether each probe's status
    is 0: two environments that agree on that for the listed names (whatever
    the exit codes, the streams and everything else are) give the same
    completion, the same probes and the same message. *)
Theorem checkInstalled_reads_status_only
    (commandsToCheck : list string) (e1 e2 : Env) :
  (forall name,
      In name commandsToCheck ->
      probe_failed e1 name = probe_failed e2 name) ->
  observe (checkInstalled failure commandsToCheck) e1
  = observe (checkInstalled failure commandsToCheck) e2.
Proof.
  intros Hagree. unfold observe. rewrite !checkInstalled_run.
  change (env (start e1)) with e1. change (env (start e2)) with e2.
  rewrite (filter_ext_in _ _ _ Hagree).
  destruct (forallb launchable commandsToCheck); [|reflexivity].
  now destruct (filter _ _).
Qed.

(** *** What the failure message tells *)

Lemma comma_free_cons (c : ascii) (s : string) :
  comma_free (String c s) -> c <> ","%char /\ comma_free s.
Proof.
  intros H. split.
  - intros ->. apply H. now exists "", s.
  - intros [a [b ->]]. apply H. now exists (String c a), b.
Qed.

Lemma append_inv_head (p a b : string) : p ++ a = p ++ b -> a = b.
Proof.
  induction p as [|c p IH]; simpl; [trivial|].
  intros H. injection H as H. auto.
Qed.

Lemma length_append (a b : string) :
  String.length (a ++ b) = String.length a + String.length b.
Proof. induction a as [|c a IH]; simpl; [reflexivity | now rewrite IH]. Qed.

Lemma append_inv_tail (a b s : string) : a ++ s = b ++ s -> a = b.
Proof.
  revert b; induction a as [|c a IH]; intros [|d b] H; simpl in H.
  - reflexivity.
  - apply (f_equal String.length) in H. simpl in H.
    rewrite length_append in H. lia.
  - apply (f_equal String.length) in H. simpl in H.
    rewrite length_append in H. lia.
  - injection H as -> H. now rewrite (IH b H).
Qed.

(** Two comma-free names followed by a comma: the names and what follows
    them agree. *)
Lemma split_at_comma (x y r1 r2 : string) :
  comma_free x -> comma_free y ->
  x ++ String "," r1 = y ++ String "," r2 -> x = y /\ r1 = r2.
Proof.
  revert y; induction x as [|c x IH]; intros [|d y] Hx Hy H; simpl in H.
  - injection H as H. now split.
  - injection H as Hc _. apply comma_free_cons in Hy. now elim (proj1 Hy).
  - injection H as Hc _. apply comma_free_cons in Hx. now elim (proj1 Hx).
  - injection H as -> H.
    apply comma_free_cons in Hx. apply comma_free_cons in Hy.
    destruct (IH y (proj2 Hx) (proj2 Hy) H) as [-> ->]. now split.
Qed.

Lemma Array_toString_cons (x y : string) (l : list string) :
  Array_toString (x :: y :: l) = x ++ String "," (Array_toString (y :: l)).
Proof. reflexivity. Qed.

(** [toString()] tells apart non-empty arrays of comma-free names. *)
Lemma Array_toString_inj (l1 l2 : list string) :
  Forall comma_free l1 -> Forall comma_free l2 ->
  l1 <> [] -> l2 <> [] ->
  Array_toString l1 = Array_toString l2 -> l1 = l2.
Proof.
  revert l2; induction l1 as [|x l1 IH]; intros l2 H1 H2 N1 N2 H;
    [contradiction|].
  destruct l2 as [|y l2]; [contradiction|].
  inversion H1 as [|? ? Hx H1']; subst. inversion H2 as [|? ? Hy H2']; subst.
  destruct l1 as [|x' l1], l2 as [|y' l2].
  - change (x = y) in H. now rewrite H.
  - change (x = y ++ String "," (Array_toString (y' :: l2))) in H.
    elim Hx. rewrite H. now exists y, (Array_toString (y' :: l2)).
  - change (x ++ String "," (Array_toString (x' :: l1)) = y) in H.
    elim Hy. rewrite <- H. now exists x, (Array_toString (x' :: l1)).
  - rewrite !Array_toString_cons in H.
    destruct (split_at_comma _ _ _ _ Hx Hy H) as [-> Hrest].
    f_equal. apply IH; try assumption; discriminate.
Qed.

Lemma missing_message_inj (l1 l2 : list string) :
  Forall comma_free l1 -> Forall comma_free l2 ->
  l1 <> [] -> l2 <> [] ->
  missing_message l1 = missing_message l2 -> l1 = l2.
Proof.
  intros H1 H2 N1 N2 H. unfold missing_message in H.
  apply append_inv_head, append_inv_tail in H.
  now apply Array_toString_inj.
Qed.

Lemma Forall_filter {A : Type} (P : A -> Prop) (f : A -> bool) (l : list A) :
  Forall P l -> Forall P (filter f l).
Proof.
  induction 1 as [|x l Hx _ IH]; simpl; [constructor|].
  destruct (f x); [now constructor | assumption].
Qed.

(** The line printed by a run of [checkInstalled], if any, is the styled
    message for the run's missing names, which are then not empty. *)
Lemma checkInstalled_logged_line (commandsToCheck : list string) (e : Env)
    (line : string) :
  In (EvLog line) (snd (observe (checkInstalled failure commandsToCheck) e)) ->
  filter (probe_failed e) commandsToCheck <> []
  /\ line = failure (missing_message (filter (probe_failed e) commandsToCheck)).
Proof.
  unfold observe. rewrite checkInstalled_run.
  change (env (start e)) with e.
  assert (Hprobes : forall l, ~ In (EvLog line) (map probe l)).
  { intros l Hin. apply in_map_iff in Hin. destruct Hin as (n & Hn & _).
    discriminate. }
  destruct (forallb launchable commandsToCheck);
    [|intros Hin; now apply Hprobes in Hin].
  destruct (filter (probe_failed e) commandsToCheck) as [|m ms]; simpl.
  - intros Hin. now apply Hprobes in Hin.
  - intros Hin. apply in_app_or in Hin. destruct Hin as [Hin|Hin].
    + now apply Hprobes in Hin.
    + destruct Hin as [Heq|[Heq|[]]]; [|discriminate].
      split; [discriminate | congruence].
Qed.

(** X4. The failure message of [checkInstalled] names the missing commands
    unambiguously when the names have no comma: if the styling keeps
    different texts different, two runs that print the same line have
    exactly the same missing list, in the same order. *)
Theorem checkInstalled_message_identifies_missing
    (l1 l2 : list string) (e1 e2 : Env) (line : string) :
  (forall a b, failure a = failure b -> a = b) ->
  Forall comma_free l1 -> Forall comma_free l2 ->
  In (EvLog line) (snd (observe (checkInstalled failure l1) e1)) ->
  In (EvLog line) (snd (observe (checkInstalled failure l2) e2)) ->
  filter (probe_failed e1) l1 = filter (probe_failed e2) l2.
Proof.
  intros Hinj Hc1 Hc2 Hin1 Hin2.
  apply checkInstalled_logged_line in Hin1, Hin2.
  destruct Hin1 as [N1 E1], Hin2 as [N2 E2].
  apply missing_message_inj; try assumption; try now apply Forall_filter.
  apply Hinj. congruence.
Qed.

(** *** How the checkers relate and what they look at *)

(** X5. The cookie check is at least as strict as the existence check on
    the same file: where [checkGitLocalAuth] returns, [checkFileExists] of
    [<home directory>/.gitcookies] returns [true]; where [checkFileExists]
    returns [false], [checkGitLocalAuth] halts with code 1. *)
Theorem checkGitLocalAuth_implies_file_exists (w : World) :
  let path := env_homedir (env w) ++ "/.gitcookies" in
  (fst (checkGitLocalAuth failure w) = Normal tt ->
   fst (checkFileExists path w) = Normal true)
  /\ (fst (checkFileExists path w) = Normal false ->
      fst (checkGitLocalAuth failure w) = Halt 1).
Proof.
  intros path. rewrite checkGitLocalAuth_run, checkFileExists_run.
  fold path. cbv zeta.
  destruct (env_readFile (env w) path) as [e|data]; simpl.
  - split; [discriminate | reflexivity].
  - split; [reflexivity | discriminate].
Qed.

(** X6. [checkGcloudProject] looks only at the status and the stderr of
    the gcloud query, and [checkGitConfig] only at the status and the stdout
    of the git query: two environments that agree on those give the same
    completion and the same actions, whatever the other stream, the other
    commands and the file system are. *)
Theorem stream_checks_read_one_stream (e1 e2 : Env) :
  let gcloud e := env_spawn e "gcloud" ["config"; "get-value"; "project"] in
  let git e := env_spawn e "git" ["config"; "--list"] in
  (status (gcloud e1) = status (gcloud e2) ->
   stderr (gcloud e1) = stderr (gcloud e2) ->
   observe (checkGcloudProject failure warn) e1
   = observe (checkGcloudProject failure warn) e2)
  /\ (status (git e1) = status (git e2) ->
      stdout (git e1) = stdout (git e2) ->
      observe (checkGitConfig failure warn varFmt) e1
      = observe (checkGitConfig failure warn varFmt) e2).
Proof.
  intros gcloud git. split; intros Hst Hstream; unfold observe.
  - rewrite !checkGcloudProject_run. cbv zeta.
    change (env (start e1)) with e1. change (env (start e2)) with e2.
    fold (gcloud e1) (gcloud e2). rewrite Hst, Hstream. clear Hst Hstream.
    destruct (strict_neq_0 _); [reflexivity|].
    destruct (stderr _) as [err|]; [|reflexivity].
    now destruct (includes _ _).
  - rewrite !checkGitConfig_run. cbv zeta.
    change (env (start e1)) with e1. change (env (start e2)) with e2.
    fold (git e1) (git e2). rewrite Hst, Hstream. clear Hst Hstream.
    destruct (strict_neq_0 _); [reflexivity|].
    destruct (stdout _) as [out|]; [|reflexivity].
    destruct (includes "email" _); cbn [negb]; cbv iota; [|reflexivity].
    now destruct (includes "name" _).
Qed.




(** X8. More output never hurts the identity check and never repairs the
    project check: if [checkGitConfig] returns for a git listing, it also
    returns for any listing that exits with 0 and contains the first one;
    if [checkGcloudProject] halts although gcloud exited with 0, it also
    halts for any stderr that contains the first one. *)
Theorem verdicts_survive_more_output
    (w w' : World) (text before after : string) :
  let git v := env_spawn (env v) "git" ["config"; "--list"] in
  let gcloud v :=
    env_spawn (env v) "gcloud" ["config"; "get-value"; "project"] in
  (stdout (git w) = Some (Buf text) ->
   fst (checkGitConfig failure warn varFmt w) = Normal tt ->
   status (git w') = Some 0%Z ->
   stdout (git w') = Some (Buf (before ++ text ++ after)) ->
   fst (checkGitConfig failure warn varFmt w') = Normal tt)
  /\ (status (gcloud w) = Some 0%Z ->
      stderr (gcloud w) = Some (Buf text) ->
      fst (checkGcloudProject failure warn w) = Halt 1 ->
      stderr (gcloud w') = Some (Buf (before ++ text ++ after)) ->
      fst (checkGcloudProject failure warn w') = Halt 1).
Proof.
  intros git gcloud.
  assert (Hext : forall needle,
             includes needle text = true ->
             includes needle (before ++ text ++ after) = true).
  { intros needle H. apply includes_iff. apply includes_iff in H.
    now apply Substring_app_r, Substring_app_l. }
  split.
  - intros Hout Hpass Hst' Hout'. revert Hpass.
    rewrite !checkGitConfig_run. cbv zeta. fold (git w) (git w').
    rewrite Hout, Hst', Hout'. cbn [strict_neq_0 Z.eqb negb Buffer_toString].
    destruct (strict_neq_0 (status (git w))); [discriminate|].
    destruct (includes "email" text) eqn:Eemail; cbn [negb]; [|discriminate].
    destruct (includes "name" text) eqn:Ename; cbn [negb]; [|discriminate].
    intros _. now rewrite (Hext _ Eemail), (Hext _ Ename).
  - intros Hst Herr Hhalt Herr'. revert Hhalt.
    rewrite !checkGcloudProject_run. cbv zeta. fold (gcloud w) (gcloud w').
    rewrite Hst, Herr, Herr'. cbn [strict_neq_0 Z.eqb negb Buffer_toString].
    destruct (includes "(unset)" text) eqn:Eunset; [|discriminate].
    intros _. rewrite (Hext _ Eunset).
    now destruct (strict_neq_0 (status (gcloud w'))).
Qed.

End Further.

(** ** The further properties at work on the sample environments *)

Lemma checkInstalled_order_irrelevant_witness :
  Permutation ["foo"; "bar"] ["bar"; "foo"]
  /\ fst (checkInstalled plain ["foo"; "bar"] (start demo_env))
     = fst (checkInstalled plain ["bar"; "foo"] (start demo_env)).
Proof.
  assert (Hperm : Permutation ["foo"; "bar"] ["bar"; "foo"])
    by apply perm_swap.
  split; [exact Hperm|].
  exact (proj1 (checkInstalled_order_irrelevant plain ["foo"; "bar"]
                  ["bar"; "foo"] (start demo_env) Hperm)).
Defined.

Lemma checkInstalled_split_witness :
  fst (checkInstalled plain ["foo"] (start demo_env)) = Normal tt
  /\ (checkInstalled plain ["foo"] ;; checkInstalled plain ["bar"; "git"])
       (start demo_env)
     = checkInstalled plain ["foo"; "bar"; "git"] (start demo_env).
Proof.
  split; [reflexivity|].
  exact (proj2 (checkInstalled_split plain ["foo"] ["bar"; "git"]
                  (start demo_env)) eq_refl).
Defined.

(** [bar] exits with 1 on one machine and cannot be launched on the other:
    the runs are the same. *)
Lemma checkInstalled_reads_status_only_witness :
  (forall name,
      In name ["foo"; "bar"] ->
      probe_failed demo_env name = probe_failed busy_env name)
  /\ observe (checkInstalled plain ["foo"; "bar"]) demo_env
     = observe (checkInstalled plain ["foo"; "bar"]) busy_env.
Proof.
  assert (Hagree : forall name,
             In name ["foo"; "bar"] ->
             probe_failed demo_env name = probe_failed busy_env name).
  { intros name [<-|[<-|[]]]; reflexivity. }
  split; [exact Hagree|].
  exact (checkInstalled_reads_status_only plain ["foo"; "bar"]
           demo_env busy_env Hagree).
Defined.

Lemma checkInstalled_message_identifies_missing_witness :
  In (EvLog "Required pre-requisites not installed: bar. Exiting...")
     (snd (observe (checkInstalled plain ["foo"; "bar"]) demo_env))
  /\ In (EvLog "Required pre-requisites not installed: bar. Exiting...")
        (snd (observe (checkInstalled plain ["bar"; "git"]) busy_env))
  /\ filter (probe_failed demo_env) ["foo"; "bar"]
     = filter (probe_failed busy_env) ["bar"; "git"].
Proof.
  assert (H1 : In (EvLog "Required pre-requisites not installed: bar. Exiting...")
                 (snd (observe (checkInstalled plain ["foo"; "bar"]) demo_env)))
    by (right; right; left; reflexivity).
  assert (H2 : In (EvLog "Required pre-requisites not installed: bar. Exiting...")
                 (snd (observe (checkInstalled plain ["bar"; "git"]) busy_env)))
    by (right; right; left; reflexivity).
  split; [exact H1|]. split; [exact H2|].
  apply (checkInstalled_message_identifies_missing plain
           ["foo"; "bar"] ["bar"; "git"] demo_env busy_env
           "Required pre-requisites not installed: bar. Exiting...").
  - intros a b H. exact H.
  - repeat constructor; apply includes_false_iff; reflexivity.
  - repeat constructor; apply includes_false_iff; reflexivity.
  - exact H1.
  - exact H2.
Defined.

Lemma checkGitLocalAuth_implies_file_exists_witness :
  fst (checkGitLocalAuth plain (start demo_env)) = Normal tt
  /\ fst (checkFileExists "/home/dev/.gitcookies" (start demo_env))
     = Normal true.
Proof.
  split; [reflexivity|].
  exact (proj1 (checkGitLocalAuth_implies_file_exists plain (start demo_env))
           eq_refl).
Defined.

(** gcloud prints a project on stdout on one machine and nothing on the
    other; stderr says [(unset)] on both: the runs are the same. *)
Lemma stream_checks_read_one_stream_witness :
  stdout (env_spawn demo_env "gcloud" ["config"; "get-value"; "project"])
  <> stdout (env_spawn busy_env "gcloud" ["config"; "get-value"; "project"])
  /\ observe (checkGcloudProject plain plain) demo_env
     = observe (checkGcloudProject plain plain) busy_env.
Proof.
  split; [discriminate|].
  exact (proj1 (stream_checks_read_one_stream plain plain plain
                  demo_env busy_env) eq_refl eq_refl).
Defined.


(** The git listing of [busy_env] is that of [demo_env] with one setting
    before and one after it. *)
Lemma verdicts_survive_more_output_witness :
  fst (checkGitConfig plain plain plain (start demo_env)) = Normal tt
  /\ fst (checkGitConfig plain plain plain (start busy_env)) = Normal tt.
Proof.
  split; [reflexivity|].
  exact (proj1 (verdicts_survive_more_output plain plain plain
                  (start demo_env) (start busy_env)
                  ("user.email=x@y.com" ++ nl ++ "user.name=X" ++ nl)
                  ("core.editor=vi" ++ nl) "color.ui=auto")
           eq_refl eq_refl eq_refl eq_refl).
Defined.

(** ** Arguments the collaborators refuse *)

(** A refused name ends the loop where it stands: the names before it were
    probed, the ones after it are not, and nothing is printed. *)
Example refused_name_stops_the_probes :
  checkInstalled plain ["bar"; "foo"; ""; "git"] (start demo_env)
  = (Throw TypeError, start demo_env <+ [probe "bar"; probe "foo"]).
Proof. reflexivity. Qed.

Example nul_in_a_name_is_refused :
  fst (checkInstalled plain ["git" ++ NUL] (start demo_env)) = Throw TypeError.
Proof. reflexivity. Qed.
